(** * Gitdev-bot: the offline commit queue ([bot.py]) and the project
    registration script ([add_project.py])

    The program is a command-line assistant: it keeps a JSON file of commits
    that could not be pushed, replays them when the network is back, and
    reports what is not yet on the remote.  The development below embeds the
    Python code in a state-and-exception monad over an explicit [World]
    (the two JSON files, the console and the version-control trace), with the
    outside world (network, git, clock, prompts) given by an [Env] oracle. *)

From Stdlib Require Import String Ascii List ZArith Bool Arith Lia.
From Stdlib Require Import Floats.PrimFloat.
Import ListNotations.

Set Implicit Arguments.
Open Scope string_scope.
Open Scope list_scope.

(** ** Python values and exceptions *)

Module Py.

(** The values [json.load] can return and [json.dump] can write.  A [VDict]
    is an association list in insertion order; in a value held by the program
    its keys are distinct, in a JSON document read from a file they need not
    be. *)
Unset Elimination Schemes.
Inductive value : Type :=
| VNone
| VBool (b : bool)
| VInt (z : Z)
| VFloat (f : float)
| VStr (s : string)
| VList (l : list value)
| VDict (kv : list (string * value)).
Set Elimination Schemes.

(** The exception classes the two scripts can meet. [ConnectionError] and
    [Timeout] are subclasses of [requests.RequestException]. *)
Inductive exn : Type :=
| RequestException
| ConnectionError
| Timeout
| InvalidGitRepositoryError
| NoSuchPathError
| GitCommandError
| JSONDecodeError
| FileNotFoundError
| KeyError (key : string)
| TypeError
| AttributeError
| ValueError
| EOFError
| KeyboardInterrupt.

(** [isinstance(e, requests.RequestException)] *)
Definition is_RequestException (e : exn) : bool :=
  match e with
  | RequestException | ConnectionError | Timeout => true
  | _ => false
  end.

Inductive result (A : Type) : Type :=
| Ret (a : A)
| Raise (e : exn).
Arguments Ret {A} a.
Arguments Raise {A} e.

(** Truth value of an object, as [if x] and [not x] test it. *)
Definition truthy (v : value) : bool :=
  match v with
  | VNone => false
  | VBool b => b
  | VInt z => negb (Z.eqb z 0)
  | VFloat f => negb (PrimFloat.eqb f 0%float)
  | VStr s => negb (String.eqb s "")
  | VList l => match l with [] => false | _ :: _ => true end
  | VDict kv => match kv with [] => false | _ :: _ => true end
  end.

(** [d[k] = v] on a dict: an existing key keeps its position, a new key goes
    last. *)
Fixpoint dict_set (k : string) (v : value) (d : list (string * value))
  : list (string * value) :=
  match d with
  | [] => [(k, v)]
  | (k', v') :: d' =>
      if String.eqb k' k then (k', v) :: d' else (k', v') :: dict_set k v d'
  end.

Fixpoint dict_get (k : string) (d : list (string * value)) : option value :=
  match d with
  | [] => None
  | (k', v') :: d' => if String.eqb k' k then Some v' else dict_get k d'
  end.

Definition dict_keys (d : list (string * value)) : list string := map fst d.

(** [x[k]] with a string subscript. *)
Definition getitem (x : value) (k : string) : result value :=
  match x with
  | VDict d => match dict_get k d with Some v => Ret v | None => Raise (KeyError k) end
  | _ => Raise TypeError
  end.

(** [x[k] = v] with a string subscript. *)
Definition setitem (x : value) (k : string) (v : value) : result value :=
  match x with
  | VDict d => Ret (VDict (dict_set k v d))
  | _ => Raise TypeError
  end.

Fixpoint chars (s : string) : list value :=
  match s with
  | EmptyString => []
  | String c s' => VStr (String c EmptyString) :: chars s'
  end.

(** The items a [for] loop visits. *)
Definition iter (x : value) : result (list value) :=
  match x with
  | VList l => Ret l
  | VDict d => Ret (map VStr (dict_keys d))
  | VStr s => Ret (chars s)
  | _ => Raise TypeError
  end.

(** The bound method [x.append]: only lists have one. *)
Definition append_method (x : value) : result (value -> value) :=
  match x with
  | VList l => Ret (fun item => VList (l ++ [item]))
  | _ => Raise AttributeError
  end.


Fixpoint join_items (sep : string) (items : list value) : result string :=
  match items with
  | [] => Ret ""
  | VStr s :: items' =>
      match items' with
      | [] => Ret s
      | _ :: _ =>
          match join_items sep items' with
          | Ret r => Ret (s ++ sep ++ r)%string
          | Raise e => Raise e
          end
      end
  | _ :: _ => Raise TypeError
  end.

(** [sep.join(x)]: [x] must be iterable and yield only strings. *)
Definition join (sep : string) (x : value) : result string :=
  match iter x with
  | Ret items => join_items sep items
  | Raise e => Raise e
  end.

(** Characters are code points below 256. [isspace] and [lower] are
    Python's on that range. *)
Definition isspace (c : ascii) : bool :=
  let n := nat_of_ascii c in
  (((9 <=? n) && (n <=? 13)) || ((28 <=? n) && (n <=? 32))
   || (n =? 133) || (n =? 160))%nat.

Definition lower_char (c : ascii) : ascii :=
  let n := nat_of_ascii c in
  if (((65 <=? n) && (n <=? 90))
      || ((192 <=? n) && (n <=? 222) && negb (n =? 215)))%nat
  then ascii_of_nat (n + 32) else c.

Fixpoint lower (s : string) : string :=
  match s with
  | EmptyString => EmptyString
  | String c s' => String (lower_char c) (lower s')
  end.

Fixpoint lstrip (s : string) : string :=
  match s with
  | EmptyString => EmptyString
  | String c s' => if isspace c then lstrip s' else s
  end.

(** Drops trailing whitespace: a character is kept when something is kept
    after it or when it is not whitespace. *)
Fixpoint rstrip (s : string) : string :=
  match s with
  | EmptyString => EmptyString
  | String c s' =>
      match rstrip s' with
      | EmptyString => if isspace c then EmptyString else String c EmptyString
      | r => String c r
      end
  end.

Definition strip (s : string) : string := rstrip (lstrip s).

(** What [json.load] returns for a document: arrays become lists and objects
    become dicts, a repeated member name keeping its first position and its
    last value. *)
Fixpoint json_value (d : value) : value :=
  match d with
  | VList l => VList (map json_value l)
  | VDict kv =>
      VDict ((fix members (kv : list (string * value)) (acc : list (string * value)) :=
                match kv with
                | [] => acc
                | (k, v) :: kv' => members kv' (dict_set k (json_value v) acc)
                end) kv [])
  | _ => d
  end.

(** A file holds either the text of a JSON document or something
    [json.load] cannot parse. *)
Inductive content : Type :=
| Document (d : value)
| Malformed (text : string).

End Py.
Import Py.

(** ** The world the scripts run in *)

Module Sys.

(** Calls that leave the process: each is answered by the environment. *)
Inductive op : Type :=
| OpHead          (* requests.head *)
| OpNow           (* datetime.now *)
| OpRepo          (* git.Repo(folder) *)
| OpInit          (* git.Repo.init(folder) *)
| OpRemote        (* repo.remote(name="origin") *)
| OpAdd           (* repo.index.add *)
| OpCommit        (* repo.index.commit *)
| OpPush          (* origin.push *)
| OpFetch         (* repo.git.fetch *)
| OpDiffIndex     (* repo.index.diff(None) *)
| OpDiffFile      (* repo.git.diff(file) *)
| OpActiveBranch  (* repo.active_branch *)
| OpIterCommits   (* repo.iter_commits *)
| OpFuzzy | OpConfirm | OpCheckbox | OpText   (* InquirerPy prompts *)
| OpWalk.         (* the files scan_todos reads *)

Definition op_eqb (a b : op) : bool :=
  match a, b with
  | OpHead, OpHead | OpNow, OpNow | OpRepo, OpRepo | OpInit, OpInit
  | OpRemote, OpRemote | OpAdd, OpAdd | OpCommit, OpCommit | OpPush, OpPush
  | OpFetch, OpFetch | OpDiffIndex, OpDiffIndex | OpDiffFile, OpDiffFile
  | OpActiveBranch, OpActiveBranch | OpIterCommits, OpIterCommits
  | OpFuzzy, OpFuzzy | OpConfirm, OpConfirm | OpCheckbox, OpCheckbox
  | OpText, OpText | OpWalk, OpWalk => true
  | _, _ => false
  end.

Record datetime : Type := mkDatetime {
  year : nat; month : nat; day : nat;
  hour : nat; minute : nat; second : nat; microsecond : nat
}.

(** The environment: for the [n]-th call of each operation, whether it raises
    and, when it returns, what it returns. *)
Record Env : Type := mkEnv {
  raises : op -> nat -> option exn;
  http_status : nat -> Z;                   (* status of the n-th response *)
  clock : nat -> datetime;                  (* n-th reading of the clock *)
  worktree_diff : nat -> list string;       (* a_path of repo.index.diff(None) *)
  file_diff : nat -> string;                (* text of repo.git.diff(file) *)
  active_branch : nat -> string;
  history : nat -> string -> list string;   (* hexshas reachable from a ref *)
  fuzzy_answer : nat -> string;
  confirm_answer : nat -> bool;
  checkbox_answer : nat -> list string;
  text_answer : nat -> string;
  todo_lines : nat -> list string           (* what scan_todos collects *)
}.

(** What the console is asked to print, one constructor per message of
    [bot.py]. *)
Inductive notice : Type :=
| NoProjects
| InitializedRepo (folder : value)
| OutsideWorkHours
| CommitQueued (commit_msg : string)
| PushedQueued (timestamp message : value)
| CommittedPushed (time : string) (commit_msg : string)
| CouldNotPush
| DiffText (diff : string)
| NoChanges (file : string)
| QueueTable (rows : list (value * value * string))
| NoQueuedCommits
| FetchFailed
| AllPushed
| StagedNotCommitted (staged : list string)
| CommitsNotPushed (shas : list string)
| QueuedOffline (messages : list value)
| Banner
| ProceedingAnyway
| NoProjectSelected
| CannotProceed
| UnfinishedTasks
| TodoLine (t : string)
| NoTodos
| InspectionCompleted (time : string).

(** Observable effects, in the order they happen. *)
Inductive event : Type :=
| EvAdd (files : value)          (* repo.index.add(files) *)
| EvCommit (message : value)     (* repo.index.commit(message) *)
| EvPush                         (* origin.push() *)
| EvFetch                        (* repo.git.fetch() *)
| EvInit (folder : value)        (* git.Repo.init(folder) *)
| EvWrite (path : string) (doc : value)   (* open(path, "w"); json.dump *)
| EvPrint (n : notice).          (* console.print *)

(** An operation that changes the repository or its remote. *)
Definition is_vcs (e : event) : bool :=
  match e with
  | EvAdd _ | EvCommit _ | EvPush | EvInit _ => true
  | _ => false
  end.

Definition is_write (e : event) : bool :=
  match e with EvWrite _ _ => true | _ => false end.

Record World : Type := mkWorld {
  fs : string -> option content;   (* the files of the working directory *)
  calls : op -> nat;               (* how many calls of each operation so far *)
  events : list event
}.

(** One more call of [o]. *)
Definition tick (o : op) (w : World) : World :=
  mkWorld (fs w)
          (fun o' => if op_eqb o o' then S (calls w o') else calls w o')
          (events w).

(** One more event. *)
Definition log (e : event) (w : World) : World :=
  mkWorld (fs w) (calls w) (events w ++ [e]).

(** The file at [path] is replaced by the document [doc]. *)
Definition store (path : string) (doc : value) (w : World) : World :=
  mkWorld (fun p => if String.eqb p path then Some (Document doc) else fs w p)
          (calls w)
          (events w ++ [EvWrite path doc]).

Arguments tick : simpl never.
Arguments log : simpl never.
Arguments store : simpl never.

Definition M (A : Type) : Type := World -> result A * World.

Definition ret {A} (a : A) : M A := fun w => (Ret a, w).
Definition raise {A} (e : exn) : M A := fun w => (Raise e, w).
Definition bind {A B} (m : M A) (k : A -> M B) : M B :=
  fun w => match m w with
           | (Ret a, w') => k a w'
           | (Raise e, w') => (Raise e, w')
           end.
Definition lift {A} (r : result A) : M A := fun w => (r, w).

(** [try: body except C: handler], where [catches] says which exceptions
    are instances of [C]. The handler runs in the world the body left. *)
Definition try_except {A} (body : M A) (catches : exn -> bool) (handler : M A) : M A :=
  fun w => match body w with
           | (Ret a, w') => (Ret a, w')
           | (Raise e, w') => if catches e then handler w' else (Raise e, w')
           end.

Definition bare_except (e : exn) : bool := true.

End Sys.
Import Sys.

Declare Scope py_scope.
Delimit Scope py_scope with py.
Notation "x <- c1 ;; c2" := (bind c1 (fun x => c2))
  (at level 61, c1 at next level, right associativity) : py_scope.
Notation "c1 ;; c2" := (bind c1 (fun _ => c2))
  (at level 61, right associativity) : py_scope.
Open Scope py_scope.

(** ** [bot.py] *)

Module Bot.

Section Program.

Variable env : Env.

Definition QUEUE_FILE : string := ".devbot_queue.json".
Definition PROJECTS_FILE : string := ".devbot_projects.json".
Definition GITHUB : string := "https://github.com".

(** *** Primitives: files, console, clock and the calls answered by [env] *)

(** The next call of [o]: it raises or returns as [env] says, and yields its
    own index so that the caller can read the returned data from [env]. *)
Definition extern (o : op) : M nat :=
  fun w => match raises env o (calls w o) with
           | Some e => (Raise e, tick o w)
           | None => (Ret (calls w o), tick o w)
           end.

Definition emit (e : event) : M unit :=
  fun w => (Ret tt, log e w).

Definition console_print (n : notice) : M unit := emit (EvPrint n).

Definition os_path_exists (path : string) : M bool :=
  fun w => (Ret (match fs w path with Some _ => true | None => false end), w).

(** [with open(path, "r") as f: json.load(f)] *)
Definition json_load (path : string) : M value :=
  fun w => match fs w path with
           | Some (Document d) => (Ret (json_value d), w)
           | Some (Malformed _) => (Raise JSONDecodeError, w)
           | None => (Raise FileNotFoundError, w)
           end.

(** [with open(path, "w") as f: json.dump(v, f, indent=2)] *)
Definition json_dump (v : value) (path : string) : M unit :=
  fun w => (Ret tt, store path v w).

Definition datetime_now : M datetime :=
  fun w => (Ret (clock env (calls w OpNow)), tick OpNow w).

Definition digit (n : nat) : ascii := ascii_of_nat (48 + n mod 10).
Definition pad2 (n : nat) : string :=
  String (digit (n / 10)) (String (digit n) "").
Definition pad4 (n : nat) : string :=
  String (digit (n / 1000)) (String (digit (n / 100)) (pad2 n)).

(** [strftime("%Y-%m-%d %H:%M:%S")] *)
Definition strftime_date_time (t : datetime) : string :=
  (pad4 (year t) ++ "-" ++ pad2 (month t) ++ "-" ++ pad2 (day t) ++ " "
   ++ pad2 (hour t) ++ ":" ++ pad2 (minute t) ++ ":" ++ pad2 (second t))%string.

(** [strftime("%H:%M:%S")] *)
Definition strftime_time (t : datetime) : string :=
  (pad2 (hour t) ++ ":" ++ pad2 (minute t) ++ ":" ++ pad2 (second t))%string.

Arguments strftime_date_time : simpl never.
Arguments strftime_time : simpl never.

(** A repository object: the folder it was opened on. *)
Definition Repo : Type := value.
(** The remote object [repo.remote(name="origin")] returns. *)
Definition Remote : Type := string.

Definition requests_head (url : string) (timeout : nat) : M Z :=
  n <- extern OpHead ;; ret (http_status env n).

Definition repo_remote (repo : Repo) (name : string) : M Remote :=
  _ <- extern OpRemote ;; ret name.

Definition repo_index_add (repo : Repo) (files : value) : M unit :=
  emit (EvAdd files) ;; _ <- extern OpAdd ;; ret tt.

Definition repo_index_commit (repo : Repo) (message : value) : M unit :=
  emit (EvCommit message) ;; _ <- extern OpCommit ;; ret tt.

Definition remote_push (origin : Remote) : M unit :=
  emit EvPush ;; _ <- extern OpPush ;; ret tt.

Definition repo_git_fetch (repo : Repo) : M unit :=
  emit EvFetch ;; _ <- extern OpFetch ;; ret tt.

(** [[item.a_path for item in repo.index.diff(None)]] *)
Definition repo_index_diff_paths (repo : Repo) : M (list string) :=
  n <- extern OpDiffIndex ;; ret (worktree_diff env n).


Definition repo_active_branch (repo : Repo) : M string :=
  n <- extern OpActiveBranch ;; ret (active_branch env n).

Definition mem (x : string) (l : list string) : bool := existsb (String.eqb x) l.

(** [list(repo.iter_commits("a..b"))]: the commits reachable from [b] that are
    not reachable from [a]. *)
Definition repo_iter_commits_range (repo : Repo) (a b : string) : M (list string) :=
  n <- extern OpIterCommits ;;
  ret (filter (fun c => negb (mem c (history env n a))) (history env n b)).

Fixpoint for_each {A} (l : list A) (body : A -> M unit) : M unit :=
  match l with
  | [] => ret tt
  | x :: l' => body x ;; for_each l' body
  end.

Fixpoint map_m {A B} (f : A -> M B) (l : list A) : M (list B) :=
  match l with
  | [] => ret []
  | x :: l' => y <- f x ;; ys <- map_m f l' ;; ret (y :: ys)
  end.

(** *** Helper functions *)


Definition save_projects (projects : value) : M unit :=
  json_dump projects PROJECTS_FILE.





Definition is_online (remote_url : string) : M bool :=
  try_except (_ <- requests_head remote_url 3 ;; ret true)
             is_RequestException
             (ret false).



(** *** Git and queue functions *)

Definition load_queue : M value :=
  b <- os_path_exists QUEUE_FILE ;;
  if b then json_load QUEUE_FILE else ret (VList []).

Definition save_queue (queue : value) : M unit :=
  json_dump queue QUEUE_FILE.

Definition queue_record (commit_msg : string) (files : list string)
  (timestamp : string) : value :=
  VDict [("message", VStr commit_msg);
         ("files", VList (map VStr files));
         ("timestamp", VStr timestamp)].

Definition queue_commit (commit_msg : string) (files : list string) : M unit :=
  queue <- load_queue ;;
  append <- lift (append_method queue) ;;
  now <- datetime_now ;;
  save_queue (append (queue_record commit_msg files (strftime_date_time now))) ;;
  console_print (CommitQueued commit_msg).

(** The body of the [for] loop of [push_queue]. *)
Definition push_queue_item (repo : Repo) (origin : Remote) (item : value) : M unit :=
  files <- lift (getitem item "files") ;;
  repo_index_add repo files ;;
  message <- lift (getitem item "message") ;;
  repo_index_commit repo message ;;
  remote_push origin ;;
  timestamp <- lift (getitem item "timestamp") ;;
  message' <- lift (getitem item "message") ;;
  console_print (PushedQueued timestamp message').

Definition push_queue (repo : Repo) : M unit :=
  queue <- load_queue ;;
  stop <- (if negb (truthy queue) then ret true
           else online <- is_online GITHUB ;; ret (negb online)) ;;
  if stop : bool then ret tt
  else
    origin <- repo_remote repo "origin" ;;
    items <- lift (iter queue) ;;
    for_each items (push_queue_item repo origin) ;;
    save_queue (VList []).




Definition nonempty {A} (l : list A) : bool :=
  match l with [] => false | _ :: _ => true end.

Definition when (b : bool) (m : M unit) : M unit := if b then m else ret tt.

Definition commit_and_push (repo : Repo) (commit_msg : string)
  (files : list string) : M unit :=
  online <- is_online GITHUB ;;
  if online : bool then
    repo_index_add repo (VList (map VStr files)) ;;
    repo_index_commit repo (VStr commit_msg) ;;
    try_except
      (origin <- repo_remote repo "origin" ;;
       remote_push origin ;;
       now <- datetime_now ;;
       console_print (CommittedPushed (strftime_time now) commit_msg))
      bare_except
      (console_print CouldNotPush ;;
       queue_commit commit_msg files)
  else
    queue_commit commit_msg files.

(** *** Queue and status reporting *)

Definition show_queue : M unit :=
  queue <- load_queue ;;
  if truthy queue then
    items <- lift (iter queue) ;;
    rows <- map_m (fun item =>
                     timestamp <- lift (getitem item "timestamp") ;;
                     message <- lift (getitem item "message") ;;
                     files <- lift (getitem item "files") ;;
                     joined <- lift (join ", " files) ;;
                     ret (timestamp, message, joined)) items ;;
    console_print (QueueTable rows)
  else
    console_print NoQueuedCommits.

Definition check_push_status (repo : Repo) : M unit :=
  origin <- repo_remote repo "origin" ;;
  fetched <- try_except (repo_git_fetch repo ;; ret true)
                        bare_except
                        (console_print FetchFailed ;; ret false) ;;
  if fetched : bool then
    branch <- repo_active_branch repo ;;
    branch' <- repo_active_branch repo ;;
    unpushed <- repo_iter_commits_range repo branch ("origin/" ++ branch')%string ;;
    queued <- load_queue ;;
    staged <- repo_index_diff_paths repo ;;
    if negb (nonempty unpushed) && negb (truthy queued) && negb (nonempty staged)
    then console_print AllPushed
    else
      when (nonempty staged) (console_print (StagedNotCommitted staged)) ;;
      when (nonempty unpushed)
           (console_print (CommitsNotPushed (map (substring 0 7) unpushed))) ;;
      when (truthy queued)
           (items <- lift (iter queued) ;;
            messages <- map_m (fun q => lift (getitem q "message")) items ;;
            console_print (QueuedOffline messages))
  else ret tt.

(** *** Main flow *)


End Program.

(** *** Scenarios *)

(** A queued commit as the claims speak of it: message, files, timestamp. *)
Definition pending : Type := string * list string * string.

Definition to_record (r : pending) : value :=
  let '(message, files, timestamp) := r in queue_record message files timestamp.

(** What replaying one record does when every step returns. *)
Definition replay (r : pending) : list event :=
  let '(message, files, timestamp) := r in
  [EvAdd (VList (map VStr files)); EvCommit (VStr message); EvPush;
   EvPrint (PushedQueued (VStr timestamp) (VStr message))].

(** The git operations of replaying one record. *)
Definition replay_vcs (r : pending) : list event :=
  let '(message, files, _) := r in
  [EvAdd (VList (map VStr files)); EvCommit (VStr message); EvPush].

(** The operations a replay calls once per record. *)
Definition replay_op (o : op) : bool :=
  match o with OpAdd | OpCommit | OpPush => true | _ => false end.





(** The commits of the local branch that its remote branch lacks, as the
    status report is said to list them: in the history of [branch], not in
    the history of [origin/branch]. Stated from the specification, to be
    compared with what [check_push_status] computes. *)
Definition committed_not_pushed (env : Env) (n : nat) (branch : string)
  : list string :=
  filter (fun c => negb (mem c (history env n ("origin/" ++ branch)%string)))
         (history env n branch).

(** An event that changes neither the repository nor a file. *)
Definition quiet_event (e : event) : bool := negb (is_vcs e) && negb (is_write e).

(** A computation that only reads and prints: the files are left as they
    were, and what it adds to the trace is quiet. *)
Definition read_only {A} (m : M A) : Prop :=
  forall w, fs (snd (m w)) = fs w /\
            exists tr, events (snd (m w)) = events w ++ tr /\
                       forallb quiet_event tr = true.



End Bot.

(** ** [add_project.py] *)

Module AddProject.

Definition PROJECTS_FILE : string := ".devbot_projects.json".

(** The script sees the registry file, what the user types and what it
    prints. *)
Record State : Type := mkState {
  registry : option content;   (* the content of PROJECTS_FILE, if it exists *)
  stdin : list string;         (* the lines still to be read *)
  stdout : list string
}.

Definition S (A : Type) : Type := State -> result A * State.

Definition sret {A} (a : A) : S A := fun s => (Ret a, s).
Definition sbind {A B} (m : S A) (k : A -> S B) : S B :=
  fun s => match m s with
           | (Ret a, s') => k a s'
           | (Raise e, s') => (Raise e, s')
           end.
Definition slift {A} (r : result A) : S A := fun s => (r, s).

(** [input(prompt)] *)
Definition input (prompt : string) : S string :=
  fun s => match stdin s with
           | [] => (Raise EOFError, mkState (registry s) [] (stdout s ++ [prompt]))
           | line :: rest => (Ret line, mkState (registry s) rest (stdout s ++ [prompt]))
           end.

Definition print (line : string) : S unit :=
  fun s => (Ret tt, mkState (registry s) (stdin s) (stdout s ++ [line])).

Definition load_existing : S value :=
  fun s => match registry s with
           | Some (Document d) => (Ret (json_value d), s)
           | Some (Malformed _) => (Raise JSONDecodeError, s)
           | None => (Ret (VDict [("projects", VDict []); ("default", VNone)]), s)
           end.

Definition dump (data : value) : S unit :=
  fun s => (Ret tt, mkState (Some (Document data)) (stdin s) (stdout s)).

Notation "x <~ c1 ;; c2" := (sbind c1 (fun x => c2))
  (at level 61, c1 at next level, right associativity).

(** The whole script. [data["projects"][name] = path] updates the dict that
    [data] holds under "projects", so [data] sees the new entry. *)
Definition script : S unit :=
  data <~ load_existing ;;
  name_in <~ input "Enter the new project name: " ;;
  let name := strip name_in in
  path_in <~ input "Enter the full path to the project folder: " ;;
  let path := strip path_in in
  projects <~ slift (getitem data "projects") ;;
  projects' <~ slift (setitem projects name (VStr path)) ;;
  data <~ slift (setitem data "projects" projects') ;;
  answer <~ input "Set this as default project? (y/n): " ;;
  let set_default := lower (strip answer) in
  data <~ (if String.eqb set_default "y"
           then slift (setitem data "default" (VStr name))
           else sret data) ;;
  _ <~ dump data ;;
  print ("Project '" ++ name ++ "' added successfully!")%string.

End AddProject.

(** ** Concrete environments and worlds *)

Module Examples.

Import Bot.

Definition noon : datetime := mkDatetime 2024 5 17 12 0 0 0.

(** Every call returns; the endpoint answers 200. *)
Definition calm (r : op -> nat -> option exn) : Env :=
  mkEnv r (fun _ => 200%Z) (fun _ => noon) (fun _ => []) (fun _ => "")
        (fun _ => "main") (fun _ _ => []) (fun _ => "") (fun _ => false)
        (fun _ => []) (fun _ => "") (fun _ => []).

Definition online : Env := calm (fun _ _ => None).

(** Every probe ends in a connection error. *)
Definition offline : Env :=
  calm (fun o _ => match o with OpHead => Some ConnectionError | _ => None end).

(** The [k]-th push (counting from 0) raises [e]; all else returns. *)
Definition push_fails (k : nat) (e : exn) : Env :=
  calm (fun o n => match o with
                   | OpPush => if Nat.eqb n k then Some e else None
                   | _ => None
                   end).

Definition no_files : string -> option content := fun _ => None.

Definition with_queue (doc : value) : string -> option content :=
  fun p => if String.eqb p QUEUE_FILE then Some (Document doc) else None.

(** The endpoint answers every probe with [status]. *)
Definition answering (status : Z) : Env :=
  mkEnv (fun _ _ => None) (fun _ => status) (fun _ => noon) (fun _ => [])
        (fun _ => "") (fun _ => "main") (fun _ _ => []) (fun _ => "")
        (fun _ => false) (fun _ => []) (fun _ => "") (fun _ => []).

(** The local branch "main" holds a commit that "origin/main" lacks; the
    working tree is clean and every call returns. *)
Definition ahead_of_remote : Env :=
  mkEnv (fun _ _ => None) (fun _ => 200%Z) (fun _ => noon) (fun _ => [])
        (fun _ => "") (fun _ => "main")
        (fun _ ref => if String.eqb ref "main" then ["c2c2c2c2"; "c1c1c1c1"]
                      else if String.eqb ref "origin/main" then ["c1c1c1c1"]
                      else [])
        (fun _ => "") (fun _ => false) (fun _ => []) (fun _ => "") (fun _ => []).

Definition fresh (files : string -> option content) : World :=
  mkWorld files (fun _ => 0) [].


(** A registry with one project, "a", which is also the default. *)
Definition registry_a : value :=
  VDict [("projects", VDict [("a", VStr "/a")]); ("default", VStr "a")].



Definition record_A : value := queue_record "A" ["x"] "2024-05-17 11:00:00".
Definition record_B : value := queue_record "B" ["y"] "2024-05-17 11:05:00".

End Examples.


(** * Properties *)

(** ** Running the monad *)

Module Run.

Import Bot.

Lemma op_eqb_refl (o : op) : op_eqb o o = true.
Proof. destruct o; reflexivity. Qed.

Lemma fs_tick o w : fs (tick o w) = fs w.
Proof. reflexivity. Qed.
Lemma events_tick o w : events (tick o w) = events w.
Proof. reflexivity. Qed.
Lemma calls_tick o w o' :
  calls (tick o w) o' = if op_eqb o o' then S (calls w o') else calls w o'.
Proof. reflexivity. Qed.
Lemma fs_log e w : fs (log e w) = fs w.
Proof. reflexivity. Qed.
Lemma calls_log e w : calls (log e w) = calls w.
Proof. reflexivity. Qed.
Lemma events_log e w : events (log e w) = events w ++ [e].
Proof. reflexivity. Qed.
Lemma fs_store p v w p' :
  fs (store p v w) p' = if String.eqb p' p then Some (Document v) else fs w p'.
Proof. reflexivity. Qed.
Lemma calls_store p v w : calls (store p v w) = calls w.
Proof. reflexivity. Qed.
Lemma events_store p v w : events (store p v w) = events w ++ [EvWrite p v].
Proof. reflexivity. Qed.

Create Rewrite HintDb world.
#[export] Hint Rewrite fs_tick events_tick calls_tick fs_log calls_log events_log
  fs_store calls_store events_store : world.

Lemma bind_ret {A B} (m : M A) (k : A -> M B) w a w' :
  m w = (Ret a, w') -> bind m k w = k a w'.
Proof. intros H. unfold bind. rewrite H. reflexivity. Qed.

Lemma bind_raise {A B} (m : M A) (k : A -> M B) w e w' :
  m w = (Raise e, w') -> bind m k w = (Raise e, w').
Proof. intros H. unfold bind. rewrite H. reflexivity. Qed.

Lemma extern_returns env o w :
  raises env o (calls w o) = None ->
  extern env o w = (Ret (calls w o), tick o w).
Proof. intros H. unfold extern. rewrite H. reflexivity. Qed.


(** Symbolic execution: unfold the program on a world kept abstract,
    normalise what is read from the world, and use what is known of the
    environment. *)
Ltac world := autorewrite with world; cbn [op_eqb].
Ltac exec :=
  repeat first
    [ progress cbn -[QUEUE_FILE PROJECTS_FILE]
    | progress autorewrite with world
    | rewrite String.eqb_refl
    | match goal with
      | H : raises _ _ _ = _ |- _ => rewrite H
      | H : fs _ _ = _ |- _ => rewrite H
      end ].

(** The probe always consumes one call of [requests.head] and touches
    nothing else. *)
Lemma is_online_world env url w :
  snd (is_online env url w) = tick OpHead w.
Proof.
  unfold is_online, try_except, requests_head, bind, extern.
  destruct (raises env OpHead (calls w OpHead)) as [e|]; cbn; [|reflexivity].
  destruct (is_RequestException e); reflexivity.
Qed.

Lemma is_online_run env url w r :
  fst (is_online env url w) = r -> is_online env url w = (r, tick OpHead w).
Proof.
  intros <-. rewrite <- (is_online_world env url w).
  destruct (is_online env url w); reflexivity.
Qed.


Lemma load_queue_absent w :
  fs w QUEUE_FILE = None -> load_queue w = (Ret (VList []), w).
Proof.
  intros E. cbv [load_queue bind os_path_exists json_load ret].
  rewrite E. reflexivity.
Qed.

Lemma load_queue_document w d :
  fs w QUEUE_FILE = Some (Document d) -> load_queue w = (Ret (json_value d), w).
Proof.
  intros E. cbv [load_queue bind os_path_exists json_load ret].
  rewrite E. cbn. rewrite E. reflexivity.
Qed.

Lemma load_queue_malformed w t :
  fs w QUEUE_FILE = Some (Malformed t) -> load_queue w = (Raise JSONDecodeError, w).
Proof.
  intros E. cbv [load_queue bind os_path_exists json_load ret].
  rewrite E. cbn. rewrite E. reflexivity.
Qed.

(** Loading reads the file and changes nothing; its result depends on the
    files only. *)
Lemma load_queue_world w : snd (load_queue w) = w.
Proof.
  destruct (fs w QUEUE_FILE) as [[d|t]|] eqn:E.
  - rewrite (load_queue_document _ E). reflexivity.
  - rewrite (load_queue_malformed _ E). reflexivity.
  - rewrite (load_queue_absent _ E). reflexivity.
Qed.

Lemma load_queue_files w1 w2 :
  fs w1 QUEUE_FILE = fs w2 QUEUE_FILE ->
  fst (load_queue w1) = fst (load_queue w2).
Proof.
  intros H. destruct (fs w2 QUEUE_FILE) as [[d|t]|] eqn:E.
  - rewrite (load_queue_document _ E), (load_queue_document w1 (d:=d)); auto.
  - rewrite (load_queue_malformed _ E), (load_queue_malformed w1 (t:=t)); auto.
  - rewrite (load_queue_absent _ E), (load_queue_absent w1); auto.
Qed.

Lemma load_queue_run w r :
  fst (load_queue w) = r -> load_queue w = (r, w).
Proof.
  intros <-. rewrite <- (load_queue_world w) at 3.
  destruct (load_queue w); reflexivity.
Qed.

Lemma load_queue_as w1 w2 r :
  fst (load_queue w1) = r -> fs w2 QUEUE_FILE = fs w1 QUEUE_FILE ->
  load_queue w2 = (r, w2).
Proof.
  intros H E. apply load_queue_run. rewrite (load_queue_files _ _ E). exact H.
Qed.

End Run.

(** ** The connectivity probe, the dispatcher and the no-op drain *)

Module BotProps.

Import Bot Run.

(** C7. When the loaded queue is empty (falsy) or the probe says offline,
    [push_queue] returns at once: it prints nothing, performs no git
    operation, writes no file, and the files are as they were. *)
Theorem push_queue_noop env repo w q :
  fst (load_queue w) = Ret q ->
  truthy q = false \/ fst (is_online env GITHUB w) = Ret false ->
  fst (push_queue env repo w) = Ret tt /\
  fs (snd (push_queue env repo w)) = fs w /\
  events (snd (push_queue env repo w)) = events w /\
  (forall o, op_eqb OpHead o = false ->
             calls (snd (push_queue env repo w)) o = calls w o).
Proof.
  intros Hload Hstop. apply load_queue_run in Hload.
  unfold push_queue. rewrite (bind_ret _ _ _ Hload).
  destruct (truthy q) eqn:Hq; cbn [negb].
  - destruct Hstop as [Hf | Hoff]; [discriminate|].
    apply is_online_run in Hoff.
    rewrite (bind_ret _ _ _ (bind_ret _ _ _ Hoff)). cbn [ret negb fst snd].
    repeat split; try reflexivity.
    intros o Ho. rewrite calls_tick, Ho. reflexivity.
  - cbn. repeat split; reflexivity.
Qed.

Lemma push_queue_noop_witness :
  let w := Examples.fresh (Examples.with_queue (VList [Examples.record_A])) in
  fst (push_queue Examples.offline VNone w) = Ret tt /\
  fs (snd (push_queue Examples.offline VNone w)) = fs w /\
  events (snd (push_queue Examples.offline VNone w)) = events w /\
  (forall o, op_eqb OpHead o = false ->
             calls (snd (push_queue Examples.offline VNone w)) o = calls w o).
Proof.
  exact (@push_queue_noop Examples.offline VNone
           (Examples.fresh (Examples.with_queue (VList [Examples.record_A])))
           (VList [Examples.record_A]) eq_refl (or_intror eq_refl)).
Defined.

(** C4, as the code has it. Whenever the probe ends in a response or in an
    error of the [requests] family (connection error, timeout), [is_online]
    returns and does not raise: [False] on the error, [True] on a response,
    whatever its status. *)
Theorem is_online_outcome env url w (probe : option exn) :
  raises env OpHead (calls w OpHead) = probe ->
  (forall e, probe = Some e -> is_RequestException e = true) ->
  fst (is_online env url w)
  = Ret (match probe with None => true | Some _ => false end).
Proof.
  intros Hp Hreq.
  unfold is_online, try_except, requests_head, bind, extern. rewrite Hp.
  destruct probe as [e|]; cbn; [|reflexivity].
  rewrite (Hreq e eq_refl). reflexivity.
Qed.

Lemma is_online_outcome_witness :
  fst (is_online (Examples.calm (fun _ _ => Some Timeout)) GITHUB
         (Examples.fresh Examples.no_files))
  = Ret false.
Proof.
  apply (@is_online_outcome (Examples.calm (fun _ _ => Some Timeout)) GITHUB
           (Examples.fresh Examples.no_files) (Some Timeout)).
  - reflexivity.
  - intros e He. injection He as <-. reflexivity.
Defined.

(** C4 as stated fails: an endpoint that answers with a non-success status
    (503) is still reported online. *)
Lemma is_online_non_success_status :
  http_status (Examples.answering 503) 0 = 503%Z /\
  fst (is_online (Examples.answering 503) GITHUB (Examples.fresh Examples.no_files))
  = Ret true.
Proof. split; reflexivity. Qed.





End BotProps.

(** ** The drain *)

Module DrainProps.

Import Bot Run.

Lemma for_each_app {A} (body : A -> M unit) l1 l2 w :
  for_each (l1 ++ l2) body w
  = match for_each l1 body w with
    | (Ret _, w') => for_each l2 body w'
    | (Raise e, w') => (Raise e, w')
    end.
Proof.
  revert w. induction l1 as [|x l1 IH]; intros w; [reflexivity|].
  cbn [for_each app]. unfold bind.
  destruct (body x w) as [[[]|e] w1]; [apply IH | reflexivity].
Qed.

(** One record whose three git steps return. *)
Lemma item_returns env repo origin r w :
  raises env OpAdd (calls w OpAdd) = None ->
  raises env OpCommit (calls w OpCommit) = None ->
  raises env OpPush (calls w OpPush) = None ->
  exists w',
    push_queue_item env repo origin (to_record r) w = (Ret tt, w') /\
    fs w' = fs w /\
    events w' = events w ++ replay r /\
    (forall o, calls w' o = calls w o + (if replay_op o then 1 else 0)).
Proof.
  intros Ha Hc Hp. destruct r as [[message files] timestamp].
  eexists. split.
  - unfold push_queue_item, repo_index_add, repo_index_commit, remote_push,
      console_print, emit, extern, lift, bind, ret.
    exec. reflexivity.
  - exec. repeat rewrite <- app_assoc. repeat split.
    intros o. autorewrite with world. destruct o; cbn; lia.
Qed.

(** One record whose push raises after its stage and commit returned. *)
Lemma item_push_raises env repo origin r w e :
  raises env OpAdd (calls w OpAdd) = None ->
  raises env OpCommit (calls w OpCommit) = None ->
  raises env OpPush (calls w OpPush) = Some e ->
  exists w',
    push_queue_item env repo origin (to_record r) w = (Raise e, w') /\
    fs w' = fs w /\
    events w' = events w ++ replay_vcs r.
Proof.
  intros Ha Hc Hp. destruct r as [[message files] timestamp].
  eexists. split.
  - unfold push_queue_item, repo_index_add, repo_index_commit, remote_push,
      console_print, emit, extern, lift, bind, ret.
    exec. reflexivity.
  - exec. repeat rewrite <- app_assoc. split; reflexivity.
Qed.

(** The loop over records whose every step returns. *)
Lemma loop_returns env repo origin rs : forall w,
  (forall i, i < length rs ->
     raises env OpAdd (calls w OpAdd + i) = None /\
     raises env OpCommit (calls w OpCommit + i) = None /\
     raises env OpPush (calls w OpPush + i) = None) ->
  exists w',
    for_each (map to_record rs) (push_queue_item env repo origin) w = (Ret tt, w') /\
    fs w' = fs w /\
    events w' = events w ++ flat_map replay rs /\
    (forall o, calls w' o = calls w o + (if replay_op o then length rs else 0)).
Proof.
  induction rs as [|r rs IH]; intros w Hok.
  - exists w. cbn. rewrite app_nil_r. repeat split.
    intros o. destruct (replay_op o); lia.
  - destruct (Hok 0 (Nat.lt_0_succ _)) as (Ha & Hc & Hp).
    rewrite !Nat.add_0_r in *.
    destruct (item_returns env repo origin r w Ha Hc Hp)
      as (w1 & Hrun & Hfs & Hev & Hcalls).
    destruct (IH w1) as (w2 & Hrun2 & Hfs2 & Hev2 & Hcalls2).
    { intros i Hi. rewrite !Hcalls. cbn [replay_op].
      replace (calls w OpAdd + 1 + i) with (calls w OpAdd + S i) by lia.
      replace (calls w OpCommit + 1 + i) with (calls w OpCommit + S i) by lia.
      replace (calls w OpPush + 1 + i) with (calls w OpPush + S i) by lia.
      apply Hok. cbn [length]. lia. }
    exists w2. cbn [map for_each flat_map length].
    rewrite (bind_ret _ _ _ Hrun). split; [exact Hrun2|].
    split; [congruence|]. split.
    + rewrite Hev2, Hev, app_assoc. reflexivity.
    + intros o. rewrite Hcalls2, Hcalls. destruct (replay_op o); lia.
Qed.

Lemma json_value_strings files :
  json_value (VList (map VStr files)) = VList (map VStr files).
Proof.
  cbn [json_value]. f_equal. induction files as [|f files IH]; [reflexivity|].
  cbn [map]. rewrite IH. reflexivity.
Qed.

(** A record written by [queue_commit] is read back as it is. *)
Lemma json_value_record r : json_value (to_record r) = to_record r.
Proof.
  destruct r as [[message files] timestamp]. unfold to_record, queue_record.
  pose proof (json_value_strings files) as H. cbn in H |- *.
  injection H as H. rewrite H. reflexivity.
Qed.

Lemma json_value_records rs :
  json_value (VList (map to_record rs)) = VList (map to_record rs).
Proof.
  cbn [json_value]. f_equal. induction rs as [|r rs IH]; [reflexivity|].
  cbn [map]. rewrite json_value_record, IH. reflexivity.
Qed.

Lemma load_queue_records w rs :
  fs w QUEUE_FILE = Some (Document (VList (map to_record rs))) ->
  load_queue w = (Ret (VList (map to_record rs)), w).
Proof.
  intros E. rewrite (load_queue_document _ E), json_value_records. reflexivity.
Qed.

(** The run of [push_queue] on a queue whose records before [failed] are
    replayed and whose push of [failed] raises [e]: the exception leaves
    [push_queue], the files are untouched, and the trace ends with the push
    that failed. *)
Lemma push_queue_push_raises env repo w before failed after e :
  fs w QUEUE_FILE
  = Some (Document (VList (map to_record (before ++ failed :: after)))) ->
  fst (is_online env GITHUB w) = Ret true ->
  raises env OpRemote (calls w OpRemote) = None ->
  (forall i, i <= length before ->
     raises env OpAdd (calls w OpAdd + i) = None /\
     raises env OpCommit (calls w OpCommit + i) = None) ->
  (forall i, i < length before ->
     raises env OpPush (calls w OpPush + i) = None) ->
  raises env OpPush (calls w OpPush + length before) = Some e ->
  exists w',
    push_queue env repo w = (Raise e, w') /\
    fs w' = fs w /\
    events w' = events w ++ flat_map replay before ++ replay_vcs failed.
Proof.
  intros Hfile Hon Hremote Hsteps Hpushes Hfail.
  apply is_online_run in Hon.
  set (w0 := tick OpRemote (tick OpHead w)).
  destruct (@loop_returns env repo "origin" before w0)
    as (w1 & Hloop & Hfs1 & Hev1 & Hcalls1).
  { intros i Hi. subst w0. autorewrite with world. cbn [op_eqb].
    destruct (Hsteps i) as [Ha Hc]; [lia|]. auto. }
  destruct (@item_push_raises env repo "origin" failed w1 e)
    as (w2 & Hitem & Hfs2 & Hev2).
  { rewrite Hcalls1. subst w0. autorewrite with world. cbn [op_eqb replay_op].
    apply (Hsteps (length before)). lia. }
  { rewrite Hcalls1. subst w0. autorewrite with world. cbn [op_eqb replay_op].
    apply (Hsteps (length before)). lia. }
  { rewrite Hcalls1. subst w0. autorewrite with world. cbn [op_eqb replay_op].
    exact Hfail. }
  exists w2. split; [|split].
  - unfold push_queue. rewrite (bind_ret _ _ _ (load_queue_records _ _ Hfile)).
    assert (Htruthy : truthy (VList (map to_record (before ++ failed :: after))) = true).
    { destruct before; reflexivity. }
    rewrite Htruthy. cbn [negb].
    rewrite (bind_ret _ _ _ (bind_ret _ _ _ Hon)). cbn [ret negb].
    unfold repo_remote.
    assert (Hremote0 : raises env OpRemote (calls (tick OpHead w) OpRemote) = None).
    { autorewrite with world. exact Hremote. }
    rewrite (bind_ret _ _ _ (bind_ret _ _ _ (extern_returns env OpRemote _ Hremote0))).
    cbn [ret lift iter]. unfold lift at 1. unfold bind at 2. cbn [iter].
    fold w0. rewrite map_app. cbn [map].
    unfold bind at 1. rewrite for_each_app, Hloop.
    cbn [for_each]. rewrite (bind_raise _ _ _ Hitem). reflexivity.
  - rewrite Hfs2, Hfs1. reflexivity.
  - rewrite Hev2, Hev1, <- app_assoc. reflexivity.
Qed.

(** C1, as the code has it. When the push of a record raises in the middle
    of a drain, the exception leaves [push_queue] before [save_queue] is
    reached: the persisted queue still holds every record, those already
    pushed included. *)
Theorem push_queue_failed_push_keeps_queue env repo w before failed after e :
  fs w QUEUE_FILE
  = Some (Document (VList (map to_record (before ++ failed :: after)))) ->
  fst (is_online env GITHUB w) = Ret true ->
  raises env OpRemote (calls w OpRemote) = None ->
  (forall i, i <= length before ->
     raises env OpAdd (calls w OpAdd + i) = None /\
     raises env OpCommit (calls w OpCommit + i) = None) ->
  (forall i, i < length before ->
     raises env OpPush (calls w OpPush + i) = None) ->
  raises env OpPush (calls w OpPush + length before) = Some e ->
  fst (push_queue env repo w) = Raise e /\
  fs (snd (push_queue env repo w)) QUEUE_FILE
  = Some (Document (VList (map to_record (before ++ failed :: after)))) /\
  filter is_write (events (snd (push_queue env repo w)))
  = filter is_write (events w).
Proof.
  intros Hfile Hon Hremote Hsteps Hpushes Hfail.
  destruct (@push_queue_push_raises env repo w before failed after e
              Hfile Hon Hremote Hsteps Hpushes Hfail)
    as (w' & Hrun & Hfs & Hev).
  rewrite Hrun. cbn [fst snd]. split; [reflexivity|].
  split; [rewrite Hfs; exact Hfile|].
  rewrite Hev, !filter_app.
  assert (Hnone : forall rs, filter is_write (flat_map replay rs) = []).
  { induction rs as [|[[m f] t] rs IH]; [reflexivity|exact IH]. }
  rewrite Hnone. destruct failed as [[m f] t]. cbn. rewrite app_nil_r.
  reflexivity.
Qed.

Lemma push_queue_failed_push_keeps_queue_witness :
  let env := Examples.push_fails 1 GitCommandError in
  let w := Examples.fresh
             (Examples.with_queue (VList [Examples.record_A; Examples.record_B])) in
  fst (push_queue env VNone w) = Raise GitCommandError /\
  fs (snd (push_queue env VNone w)) QUEUE_FILE
  = Some (Document (VList [Examples.record_A; Examples.record_B])) /\
  filter is_write (events (snd (push_queue env VNone w))) = [].
Proof.
  refine (@push_queue_failed_push_keeps_queue
            (Examples.push_fails 1 GitCommandError) VNone
            (Examples.fresh
               (Examples.with_queue (VList [Examples.record_A; Examples.record_B])))
            [("A", ["x"], "2024-05-17 11:00:00")]
            ("B", ["y"], "2024-05-17 11:05:00") [] GitCommandError
            eq_refl eq_refl eq_refl _ _ eq_refl).
  - intros i Hi. split; reflexivity.
  - intros i Hi. cbn in Hi. assert (i = 0) as -> by lia. reflexivity.
Defined.

(** C1 as stated fails: of the records A, B, the push of B raises; the
    persisted queue is then [A, B], not [B]. *)
Lemma push_queue_partial_drain_keeps_pushed_record :
  let env := Examples.push_fails 1 GitCommandError in
  let w := Examples.fresh
             (Examples.with_queue (VList [Examples.record_A; Examples.record_B])) in
  raises env OpPush 0 = None /\
  raises env OpPush 1 = Some GitCommandError /\
  fs (snd (push_queue env VNone w)) QUEUE_FILE
  = Some (Document (VList [Examples.record_A; Examples.record_B])) /\
  fs (snd (push_queue env VNone w)) QUEUE_FILE
  <> Some (Document (VList [Examples.record_B])).
Proof.
  cbv zeta. repeat split; try reflexivity.
  vm_compute. discriminate.
Qed.





End DrainProps.

(** ** Order of replay *)

Module OrderProps.

Import Bot Run DrainProps.
















End OrderProps.

(** ** The queue store *)

Module StoreProps.

Import Bot Run.

(** Induction over values, through lists and dicts. *)
Lemma value_induction (P : value -> Prop)
  (Hnone : P VNone) (Hbool : forall b, P (VBool b)) (Hint : forall z, P (VInt z))
  (Hfloat : forall f, P (VFloat f)) (Hstr : forall s, P (VStr s))
  (Hlist : forall l, Forall P l -> P (VList l))
  (Hdict : forall kv, Forall (fun p => P (snd p)) kv -> P (VDict kv)) :
  forall v, P v.
Proof.
  exact (fix F (v : value) : P v :=
           match v with
           | VNone => Hnone
           | VBool b => Hbool b
           | VInt z => Hint z
           | VFloat f => Hfloat f
           | VStr s => Hstr s
           | VList l =>
               Hlist l ((fix G (l : list value) : Forall P l :=
                           match l with
                           | [] => Forall_nil P
                           | x :: l' => Forall_cons x (F x) (G l')
                           end) l)
           | VDict kv =>
               Hdict kv ((fix G (kv : list (string * value))
                            : Forall (fun p => P (snd p)) kv :=
                            match kv with
                            | [] => Forall_nil _
                            | p :: kv' =>
                                Forall_cons (P := fun p => P (snd p)) p
                                  (F (snd p)) (G kv')
                            end) kv)
           end).
Qed.

(** The members of an object, set one after the other into [acc]. *)
Lemma json_value_dict kv :
  json_value (VDict kv)
  = VDict (fold_left (fun acc p => dict_set (fst p) (json_value (snd p)) acc) kv []).
Proof.
  cbn [json_value]. f_equal. generalize (@nil (string * value)).
  induction kv as [|[k v] kv IH]; intros acc; [reflexivity|].
  cbn [fold_left fst snd]. apply IH.
Qed.

Lemma dict_set_fresh k v d :
  ~ In k (dict_keys d) -> dict_set k v d = d ++ [(k, v)].
Proof.
  induction d as [|[k' v'] d IH]; intros Hk; [reflexivity|].
  cbn [dict_set app]. destruct (String.eqb_spec k' k) as [->|Hne].
  - exfalso. apply Hk. left. reflexivity.
  - rewrite IH; [reflexivity|]. intros Hin. apply Hk. right. exact Hin.
Qed.

Lemma dict_set_keys k v d :
  dict_keys (dict_set k v d)
  = if existsb (String.eqb k) (dict_keys d) then dict_keys d else dict_keys d ++ [k].
Proof.
  induction d as [|[k' v'] d IH]; [reflexivity|].
  cbn [dict_set dict_keys map fst existsb].
  destruct (String.eqb_spec k' k) as [->|Hne].
  - rewrite String.eqb_refl. reflexivity.
  - cbn [map fst]. fold (dict_keys (dict_set k v d)). rewrite IH.
    fold (dict_keys d). rewrite (proj2 (String.eqb_neq k k')) by congruence.
    cbn [orb]. destruct (existsb (String.eqb k) (dict_keys d)); reflexivity.
Qed.

Lemma dict_set_NoDup k v d :
  NoDup (dict_keys d) -> NoDup (dict_keys (dict_set k v d)).
Proof.
  intros Hd. rewrite dict_set_keys.
  destruct (existsb (String.eqb k) (dict_keys d)) eqn:E; [exact Hd|].
  apply NoDup_app; [exact Hd | repeat constructor; intros [] | ].
  intros x Hx [Heq|[]]. subst x.
  assert (existsb (String.eqb k) (dict_keys d) = true).
  { apply existsb_exists. exists k. split; [exact Hx|apply String.eqb_refl]. }
  congruence.
Qed.

Lemma dict_set_Forall (P : value -> Prop) k v d :
  P v -> Forall (fun p => P (snd p)) d ->
  Forall (fun p => P (snd p)) (dict_set k v d).
Proof.
  intros Hv. induction d as [|[k' v'] d IH]; intros Hd.
  - repeat constructor. exact Hv.
  - cbn [dict_set]. inversion Hd as [|? ? Hh Ht]; subst.
    destruct (String.eqb k' k); constructor; auto.
Qed.

(** Setting members keeps the keys distinct and the values as given. *)
Lemma members_invariant (P : value -> Prop) kv : forall acc,
  NoDup (dict_keys acc) ->
  Forall (fun p => P (snd p)) acc ->
  Forall (fun p => P (json_value (snd p))) kv ->
  let d := fold_left (fun acc p => dict_set (fst p) (json_value (snd p)) acc) kv acc in
  NoDup (dict_keys d) /\ Forall (fun p => P (snd p)) d.
Proof.
  induction kv as [|[k v] kv IH]; intros acc Hnd Hacc Hkv; cbn [fold_left].
  - split; assumption.
  - inversion Hkv as [|? ? Hh Ht]; subst. cbn [fst snd] in *.
    apply IH; [apply dict_set_NoDup | apply dict_set_Forall | ]; assumption.
Qed.

(** A dict with distinct keys and values that load as themselves is set
    member by member to itself. *)
Lemma members_fixed d : forall acc,
  NoDup (dict_keys (acc ++ d)) ->
  Forall (fun p => json_value (snd p) = snd p) d ->
  fold_left (fun acc p => dict_set (fst p) (json_value (snd p)) acc) d acc
  = acc ++ d.
Proof.
  induction d as [|[k v] d IH]; intros acc Hnd Hfix; cbn [fold_left].
  - rewrite app_nil_r. reflexivity.
  - inversion Hfix as [|? ? Hh Ht]; subst. cbn [fst snd] in *. rewrite Hh.
    assert (Hfresh : ~ In k (dict_keys acc)).
    { unfold dict_keys in *. rewrite map_app in Hnd. cbn [map fst] in Hnd.
      apply NoDup_remove_2 in Hnd. intros Hin. apply Hnd.
      apply in_or_app. left. exact Hin. }
    rewrite (@dict_set_fresh k v acc Hfresh), IH.
    + rewrite <- app_assoc. reflexivity.
    + rewrite <- app_assoc. exact Hnd.
    + exact Ht.
Qed.

(** What [json.load] returns, written out and loaded again, is itself. *)
Lemma json_value_idempotent : forall d, json_value (json_value d) = json_value d.
Proof.
  induction d as [| | | | |l IH|kv IH] using value_induction; try reflexivity.
  - cbn [json_value]. f_equal. rewrite map_map.
    induction IH as [|x l Hx Hl IHl]; [reflexivity|].
    cbn [map]. rewrite Hx, IHl. reflexivity.
  - rewrite json_value_dict.
    destruct (@members_invariant (fun v => json_value v = v) kv []
                (NoDup_nil _) (Forall_nil _) IH) as [Hnd Hfix].
    rewrite json_value_dict. f_equal.
    apply (@members_fixed _ []); assumption.
Qed.

(** C8. Loading the queue and saving what was loaded leaves the same queue:
    the call returns, a later load gives the value the first load gave, no
    other file changes, and the document itself is unchanged when it repeats
    no member name. *)
Theorem save_load_round_trip w d :
  fs w QUEUE_FILE = Some (Document d) ->
  let run := (queue <- load_queue ;; save_queue queue) w in
  fst run = Ret tt /\
  fst (load_queue (snd run)) = fst (load_queue w) /\
  fst (load_queue w) = Ret (json_value d) /\
  (json_value d = d -> fs (snd run) QUEUE_FILE = fs w QUEUE_FILE) /\
  (forall p, String.eqb p QUEUE_FILE = false -> fs (snd run) p = fs w p).
Proof.
  intros Hfile run. subst run.
  rewrite (bind_ret _ _ _ (load_queue_document _ Hfile)).
  unfold save_queue, json_dump. cbn [fst snd].
  split; [reflexivity|].
  assert (E : fs (store QUEUE_FILE (json_value d) w) QUEUE_FILE
              = Some (Document (json_value d))).
  { rewrite fs_store, String.eqb_refl. reflexivity. }
  rewrite (load_queue_document _ E), (load_queue_document _ Hfile).
  cbn [fst]. rewrite json_value_idempotent.
  split; [reflexivity|]. split; [reflexivity|]. split.
  - intros Hd. rewrite E, Hfile, Hd. reflexivity.
  - intros p Hp. rewrite fs_store, Hp. reflexivity.
Qed.

Lemma save_load_round_trip_witness :
  let w := Examples.fresh
             (Examples.with_queue (VList [Examples.record_A; Examples.record_B])) in
  let run := (queue <- load_queue ;; save_queue queue) w in
  fst run = Ret tt /\
  fst (load_queue (snd run)) = fst (load_queue w) /\
  fst (load_queue w) = Ret (VList [Examples.record_A; Examples.record_B]).
Proof.
  cbv zeta.
  destruct (@save_load_round_trip
              (Examples.fresh
                 (Examples.with_queue (VList [Examples.record_A; Examples.record_B])))
              (VList [Examples.record_A; Examples.record_B]) eq_refl)
    as (Hret & Hsame & Hload & _).
  split; [exact Hret|]. split; [exact Hsame|exact Hload].
Defined.

End StoreProps.

(** ** The status report *)

Module StatusProps.

Import Bot Run.

(** C5 fails on the code. The local branch is one commit ahead of the fetched
    remote branch, nothing is staged and nothing is queued: the range
    [branch..origin/branch] that [check_push_status] lists is empty, and it
    reports that everything is pushed. *)
Theorem check_push_status_misses_unpushed_commit :
  let env := Examples.ahead_of_remote in
  let w := Examples.fresh Examples.no_files in
  committed_not_pushed env 0 "main" = ["c2c2c2c2"] /\
  fst (repo_iter_commits_range env VNone "main" "origin/main" w) = Ret [] /\
  fst (check_push_status env VNone w) = Ret tt /\
  events (snd (check_push_status env VNone w)) = [EvFetch; EvPrint AllPushed].
Proof. cbv zeta. repeat split; reflexivity. Qed.

End StatusProps.

(** ** The registration script *)

Module RegistryProps.

Import AddProject.

Lemma dict_get_set_same k v d : dict_get k (dict_set k v d) = Some v.
Proof.
  induction d as [|[k' v'] d IH]; cbn [dict_set dict_get].
  - rewrite String.eqb_refl. reflexivity.
  - destruct (String.eqb k' k) eqn:E; cbn [dict_get]; rewrite E; auto.
Qed.

Lemma dict_get_set_other k k' v d :
  k' <> k -> dict_get k' (dict_set k v d) = dict_get k' d.
Proof.
  intros Hne. induction d as [|[k0 v0] d IH]; cbn [dict_set dict_get].
  - rewrite (proj2 (String.eqb_neq k k')) by congruence. reflexivity.
  - destruct (String.eqb_spec k0 k) as [->|Hk]; cbn [dict_get].
    + rewrite (proj2 (String.eqb_neq k k')) by congruence. reflexivity.
    + rewrite IH. reflexivity.
Qed.

(** C10, as the code has it. On a registry that holds a dict of projects,
    the script returns and rewrites the file: the entered name, stripped,
    maps to the entered path, stripped; every other project is as it was;
    every other key of the registry is as it was; and the default becomes
    the entered name exactly when the answer, stripped and lowercased, is
    "y". *)
Theorem script_registers d data projects name_in path_in answer rest out :
  json_value d = VDict data ->
  dict_get "projects" data = Some (VDict projects) ->
  let run := script (mkState (Some (Document d))
                       (name_in :: path_in :: answer :: rest) out) in
  let name := strip name_in in
  exists data' projects',
    fst run = Ret tt /\
    registry (snd run) = Some (Document (VDict data')) /\
    dict_get "projects" data' = Some (VDict projects') /\
    dict_get name projects' = Some (VStr (strip path_in)) /\
    (forall k, k <> name -> dict_get k projects' = dict_get k projects) /\
    dict_get "default" data'
    = (if String.eqb (lower (strip answer)) "y" then Some (VStr name)
       else dict_get "default" data) /\
    (forall k, k <> "projects" -> k <> "default" ->
               dict_get k data' = dict_get k data).
Proof.
  intros Hd Hprojects run name. subst run name.
  unfold script, sbind, load_existing, input, slift, sret, dump, print.
  cbn [registry stdin stdout fst snd]. rewrite Hd.
  cbn [getitem]. rewrite Hprojects. cbn [setitem].
  destruct (String.eqb (lower (strip answer)) "y") eqn:Hy; cbn [setitem fst snd registry].
  - eexists. eexists. split; [reflexivity|]. split; [reflexivity|].
    split.
    { rewrite dict_get_set_other by discriminate. apply dict_get_set_same. }
    split; [apply dict_get_set_same|].
    split; [intros k Hk; apply dict_get_set_other; exact Hk|].
    split; [apply dict_get_set_same|].
    intros k Hp Hdef. rewrite !dict_get_set_other by assumption. reflexivity.
  - eexists. eexists. split; [reflexivity|]. split; [reflexivity|].
    split; [apply dict_get_set_same|].
    split; [apply dict_get_set_same|].
    split; [intros k Hk; apply dict_get_set_other; exact Hk|].
    split; [apply dict_get_set_other; discriminate|].
    intros k Hp Hdef. rewrite dict_get_set_other by assumption. reflexivity.
Qed.

Lemma script_registers_witness :
  let run := script (mkState (Some (Document Examples.registry_a))
                       ["b "; " /b"; "n"] []) in
  exists data' projects',
    fst run = Ret tt /\
    registry (snd run) = Some (Document (VDict data')) /\
    dict_get "projects" data' = Some (VDict projects') /\
    dict_get "b" projects' = Some (VStr "/b") /\
    dict_get "a" projects' = Some (VStr "/a") /\
    dict_get "default" data' = Some (VStr "a").
Proof.
  cbv zeta.
  destruct (@script_registers Examples.registry_a
              [("projects", VDict [("a", VStr "/a")]); ("default", VStr "a")]
              [("a", VStr "/a")] "b " " /b" "n" [] [] eq_refl eq_refl)
    as (data' & projects' & Hret & Hfile & Hprojects & Hnew & Hold & Hdefault & _).
  exists data', projects'.
  split; [exact Hret|]. split; [exact Hfile|]. split; [exact Hprojects|].
  split; [exact Hnew|]. split; [|exact Hdefault].
  apply (Hold "a"). discriminate.
Defined.

(** C10 as stated fails: the answer "Y" is not exactly "y", and the default
    project changes from "a" to "b". *)
Lemma script_answer_uppercase_sets_default :
  let run := script (mkState (Some (Document Examples.registry_a))
                       ["b"; "/b"; "Y"] []) in
  String.eqb "Y" "y" = false /\
  getitem Examples.registry_a "default" = Ret (VStr "a") /\
  registry (snd run)
  = Some (Document
            (VDict [("projects", VDict [("a", VStr "/a"); ("b", VStr "/b")]);
                    ("default", VStr "b")])).
Proof. cbv zeta. repeat split; reflexivity. Qed.

End RegistryProps.

(** ** Reading without writing *)

Module FrameProps.

Import Bot Run.

Lemma read_only_ret {A} (a : A) : read_only (ret a).
Proof. intros w. split; [reflexivity|]. exists []. rewrite app_nil_r. auto. Qed.

Lemma read_only_lift {A} (r : result A) : read_only (lift r).
Proof. intros w. split; [reflexivity|]. exists []. rewrite app_nil_r. auto. Qed.

Lemma read_only_bind {A B} (m : M A) (k : A -> M B) :
  read_only m -> (forall a, read_only (k a)) -> read_only (bind m k).
Proof.
  intros Hm Hk w. unfold bind. destruct (Hm w) as (Hfs & tr & Hev & Hq).
  destruct (m w) as [[a|e] w1]; cbn [snd] in *.
  - destruct (Hk a w1) as (Hfs2 & tr2 & Hev2 & Hq2).
    split; [congruence|]. exists (tr ++ tr2). split.
    + rewrite Hev2, Hev, app_assoc. reflexivity.
    + rewrite forallb_app, Hq, Hq2. reflexivity.
  - split; [exact Hfs|]. exists tr. auto.
Qed.

Lemma read_only_try_except {A} (body handler : M A) catches :
  read_only body -> read_only handler -> read_only (try_except body catches handler).
Proof.
  intros Hb Hh w. unfold try_except. destruct (Hb w) as (Hfs & tr & Hev & Hq).
  destruct (body w) as [[a|e] w1]; cbn [snd] in *.
  - split; [exact Hfs|]. exists tr. auto.
  - destruct (catches e).
    + destruct (Hh w1) as (Hfs2 & tr2 & Hev2 & Hq2).
      split; [congruence|]. exists (tr ++ tr2). split.
      * rewrite Hev2, Hev, app_assoc. reflexivity.
      * rewrite forallb_app, Hq, Hq2. reflexivity.
    + split; [exact Hfs|]. exists tr. auto.
Qed.

Lemma read_only_extern env o : read_only (extern env o).
Proof.
  intros w. unfold extern. destruct (raises env o (calls w o)); cbn [snd];
    (split; [reflexivity|]; exists []; rewrite app_nil_r; auto).
Qed.

Lemma read_only_emit e : quiet_event e = true -> read_only (emit e).
Proof.
  intros He w. split; [reflexivity|]. exists [e]. split; [reflexivity|].
  cbn. rewrite He. reflexivity.
Qed.

Lemma read_only_when b (m : M unit) : read_only m -> read_only (when b m).
Proof. intros Hm. destruct b; [exact Hm | apply read_only_ret]. Qed.

Lemma read_only_map_m {A B} (f : A -> M B) l :
  (forall a, read_only (f a)) -> read_only (map_m f l).
Proof.
  intros Hf. induction l as [|x l IH]; cbn [map_m]; [apply read_only_ret|].
  apply read_only_bind; [apply Hf|]. intros y.
  apply read_only_bind; [exact IH|]. intros ys. apply read_only_ret.
Qed.

Lemma read_only_load_queue : read_only load_queue.
Proof.
  intros w. rewrite load_queue_world. split; [reflexivity|].
  exists []. rewrite app_nil_r. auto.
Qed.

Ltac read_only :=
  repeat first
    [ apply read_only_ret | apply read_only_lift | apply read_only_load_queue
    | apply read_only_extern | apply read_only_emit; reflexivity
    | apply read_only_when | apply read_only_try_except
    | apply read_only_map_m; intros ?
    | apply read_only_bind; [|intros ?]
    | match goal with |- read_only (if ?b then _ else _) => destruct b end
    | match goal with |- read_only (match ?x with _ => _ end) => destruct x end ].


(** X. Showing the queue reads and prints only, whatever the queue file
    holds. *)
Theorem show_queue_read_only : read_only show_queue.
Proof. unfold show_queue, console_print. read_only. Qed.

End FrameProps.

(** ** More on the status report and the queue table *)

Module ReportProps.

Import Bot Run.

Ltac exec_keep :=
  repeat first
    [ progress cbn -[QUEUE_FILE PROJECTS_FILE load_queue]
    | progress autorewrite with world
    | rewrite String.eqb_refl
    | match goal with
      | H : raises _ _ _ = _ |- _ => rewrite H
      | H : fs _ _ = _ |- _ => rewrite H
      end ].

(** X. When the fetch raises, whatever the exception, the status report
    prints the fetch notice and returns: it does not raise, does not list
    commits, and never prints that everything is pushed. *)
Theorem check_push_status_fetch_failure env repo w e :
  raises env OpRemote (calls w OpRemote) = None ->
  raises env OpFetch (calls w OpFetch) = Some e ->
  fst (check_push_status env repo w) = Ret tt /\
  events (snd (check_push_status env repo w))
  = events w ++ [EvFetch; EvPrint FetchFailed] /\
  calls (snd (check_push_status env repo w)) OpIterCommits = calls w OpIterCommits.
Proof.
  intros Hremote Hfetch.
  unfold check_push_status, repo_remote, repo_git_fetch, console_print,
    try_except, emit, extern, bind, ret.
  exec. rewrite <- app_assoc. repeat split; reflexivity.
Qed.

Lemma check_push_status_fetch_failure_witness :
  let env := Examples.calm (fun o _ => match o with
                                        | OpFetch => Some GitCommandError
                                        | _ => None
                                        end) in
  let w := Examples.fresh Examples.no_files in
  fst (check_push_status env VNone w) = Ret tt /\
  events (snd (check_push_status env VNone w)) = [EvFetch; EvPrint FetchFailed] /\
  calls (snd (check_push_status env VNone w)) OpIterCommits = 0.
Proof.
  exact (@check_push_status_fetch_failure
           (Examples.calm (fun o _ => match o with
                                      | OpFetch => Some GitCommandError
                                      | _ => None
                                      end))
           VNone (Examples.fresh Examples.no_files) GitCommandError
           eq_refl eq_refl).
Defined.

Lemma map_m_lift_world {A B} (g : A -> result B) l : forall w,
  snd (map_m (fun q => lift (g q)) l w) = w.
Proof.
  induction l as [|x l IH]; intros w; [reflexivity|].
  cbn [map_m]. unfold bind, lift at 1. destruct (g x); [|reflexivity].
  specialize (IH w). destruct (map_m _ l w) as [[ys|e] w1]; exact IH.
Qed.

(** X. After a fetch that returned, with every repository call returning and
    a loadable queue, the report prints that everything is pushed exactly
    when the three lists it computed are empty: the commits of the range, the
    loaded queue, and the paths that differ from the index. *)
Theorem check_push_status_all_pushed_iff env repo w queued :
  raises env OpRemote (calls w OpRemote) = None ->
  raises env OpFetch (calls w OpFetch) = None ->
  raises env OpActiveBranch (calls w OpActiveBranch) = None ->
  raises env OpActiveBranch (S (calls w OpActiveBranch)) = None ->
  raises env OpIterCommits (calls w OpIterCommits) = None ->
  raises env OpDiffIndex (calls w OpDiffIndex) = None ->
  fst (load_queue w) = Ret queued ->
  let listed :=
    filter (fun c => negb (mem c (history env (calls w OpIterCommits)
                                    (active_branch env (calls w OpActiveBranch)))))
           (history env (calls w OpIterCommits)
              ("origin/" ++ active_branch env (S (calls w OpActiveBranch)))%string) in
  let staged := worktree_diff env (calls w OpDiffIndex) in
  exists tr,
    events (snd (check_push_status env repo w)) = events w ++ EvFetch :: tr /\
    (In (EvPrint AllPushed) tr <->
     listed = [] /\ truthy queued = false /\ staged = []).
Proof.
  intros Hremote Hfetch Hb1 Hb2 Hiter Hdiff Hload listed staged.
  subst listed staged.
  unfold check_push_status, repo_remote, repo_git_fetch, repo_active_branch,
    repo_iter_commits_range, repo_index_diff_paths, console_print,
    try_except, emit, extern, bind, ret.
  exec_keep.
  match goal with
  | |- context [load_queue ?w1] =>
      rewrite (@load_queue_as w w1 (Ret queued) Hload eq_refl)
  end.
  exec_keep.
  set (listed := filter _ _). set (staged := worktree_diff _ _).
  destruct listed as [|c listed'], (truthy queued) eqn:Hq, staged as [|p staged'];
    cbn -[QUEUE_FILE load_queue].
  all: try solve
         [ eexists; split;
           [autorewrite with world; rewrite <- ?app_assoc; reflexivity|];
           split; [ intros _; repeat split; reflexivity
                  | intros _; left; reflexivity ] ].
  all: destruct (iter queued) as [items|e0];
    cbn -[QUEUE_FILE load_queue map_m];
    try (pose proof (map_m_lift_world (fun q => getitem q "message") items) as Hw;
         match goal with
         | |- context [map_m ?f items ?w1] =>
             specialize (Hw w1); destruct (map_m f items w1) as [[msgs|e1] w2]
         end; cbn [snd] in Hw; subst w2);
    cbn [snd];
    (eexists; split;
     [autorewrite with world; rewrite <- ?app_assoc; reflexivity|];
     split; [ intros H; cbn in H;
              repeat (destruct H as [H|H]; [discriminate|]); destruct H
            | intros (H1 & H2 & H3);
              first [discriminate H1 | discriminate H2 | discriminate H3] ]).
Qed.

Lemma check_push_status_all_pushed_iff_witness :
  exists tr,
    events (snd (check_push_status Examples.online VNone
                   (Examples.fresh Examples.no_files)))
    = EvFetch :: tr /\
    In (EvPrint AllPushed) tr.
Proof.
  destruct (@check_push_status_all_pushed_iff Examples.online VNone
              (Examples.fresh Examples.no_files) (VList [])
              eq_refl eq_refl eq_refl eq_refl eq_refl eq_refl eq_refl)
    as (tr & Hev & Hiff).
  exists tr. split; [exact Hev|]. apply Hiff. repeat split; reflexivity.
Defined.




End ReportProps.

(** ** Errors of the queue file and of the dispatcher *)

Module ErrorProps.

Import Bot Run.

(** X. A queue file that does not parse is never overwritten: [push_queue]
    and a dispatch while offline both raise [JSONDecodeError], leave every
    file as it was, and perform no git operation; [push_queue] does not even
    probe the network. *)
Theorem corrupt_queue_is_kept env repo commit_msg files w text :
  fs w QUEUE_FILE = Some (Malformed text) ->
  fst (is_online env GITHUB w) = Ret false ->
  push_queue env repo w = (Raise JSONDecodeError, w) /\
  fst (commit_and_push env repo commit_msg files w) = Raise JSONDecodeError /\
  fs (snd (commit_and_push env repo commit_msg files w)) = fs w /\
  events (snd (commit_and_push env repo commit_msg files w)) = events w.
Proof.
  intros Hfile Hoff. split.
  - unfold push_queue.
    apply (bind_raise _ _ _ (load_queue_malformed _ Hfile)).
  - apply is_online_run in Hoff.
    unfold commit_and_push. rewrite (bind_ret _ _ _ Hoff).
    unfold queue_commit.
    assert (Hload : load_queue (tick OpHead w)
                    = (Raise JSONDecodeError, tick OpHead w)).
    { apply (@load_queue_malformed _ text). rewrite fs_tick. exact Hfile. }
    rewrite (bind_raise _ _ _ Hload). repeat split.
Qed.

Lemma corrupt_queue_is_kept_witness :
  let w := Examples.fresh
             (fun p => if String.eqb p QUEUE_FILE then Some (Malformed "[{") else None) in
  push_queue Examples.offline VNone w = (Raise JSONDecodeError, w) /\
  fst (commit_and_push Examples.offline VNone "fix" ["a.py"] w) = Raise JSONDecodeError /\
  fs (snd (commit_and_push Examples.offline VNone "fix" ["a.py"] w)) = fs w /\
  events (snd (commit_and_push Examples.offline VNone "fix" ["a.py"] w)) = events w.
Proof.
  exact (@corrupt_queue_is_kept Examples.offline VNone "fix" ["a.py"]
           (Examples.fresh
              (fun p => if String.eqb p QUEUE_FILE then Some (Malformed "[{") else None))
           "[{" eq_refl eq_refl).
Defined.

(** X. When the queue file holds a JSON document that is not an array,
    [queue_commit] raises [AttributeError] before it reads the clock, and the
    file keeps its content. *)
Theorem queue_commit_needs_a_list env commit_msg files w d :
  fs w QUEUE_FILE = Some (Document d) ->
  (forall l, json_value d <> VList l) ->
  fst (queue_commit env commit_msg files w) = Raise AttributeError /\
  snd (queue_commit env commit_msg files w) = w.
Proof.
  intros Hfile Hnot. unfold queue_commit.
  rewrite (bind_ret _ _ _ (load_queue_document _ Hfile)).
  unfold lift, bind. destruct (json_value d) as [| | | | |l|kv]; try (split; reflexivity).
  exfalso. apply (Hnot l). reflexivity.
Qed.

Lemma queue_commit_needs_a_list_witness :
  let w := Examples.fresh (Examples.with_queue (VDict [("message", VStr "A")])) in
  fst (queue_commit Examples.online "fix" ["a.py"] w) = Raise AttributeError /\
  snd (queue_commit Examples.online "fix" ["a.py"] w) = w.
Proof.
  refine (@queue_commit_needs_a_list Examples.online "fix" ["a.py"]
            (Examples.fresh (Examples.with_queue (VDict [("message", VStr "A")])))
            (VDict [("message", VStr "A")]) eq_refl _).
  intros l H. discriminate H.
Defined.





(** X. An exception of the probe that is not a [requests.RequestException]
    is not caught: [is_online] raises it to its caller. *)
Theorem is_online_other_exception env url w e :
  raises env OpHead (calls w OpHead) = Some e ->
  is_RequestException e = false ->
  fst (is_online env url w) = Raise e.
Proof.
  intros Hp He.
  unfold is_online, try_except, requests_head, bind, extern.
  rewrite Hp. cbn. rewrite He. reflexivity.
Qed.

Lemma is_online_other_exception_witness :
  fst (is_online (Examples.calm (fun _ _ => Some KeyboardInterrupt)) GITHUB
         (Examples.fresh Examples.no_files))
  = Raise KeyboardInterrupt.
Proof.
  exact (@is_online_other_exception
           (Examples.calm (fun _ _ => Some KeyboardInterrupt)) GITHUB
           (Examples.fresh Examples.no_files) KeyboardInterrupt eq_refl eq_refl).
Defined.

End ErrorProps.
